(** * Passenger: [AppResponse] framing queries and [SpawnException] annotations

    A shallow embedding of
    - [ext/common/agents/HelperAgent/RequestHandler/AppResponse.h]
      (class [AppResponse]: the per-connection response framing state and
      its query methods), and
    - [ext/common/Exceptions.h] (class [SpawnException]: constructors,
      accessors and the annotation map; class [SystemException]),
    followed by the properties proved about them. *)

From Stdlib Require Import ZArith Bool List Lia.
From stdpp Require Import gmap strings list fin_maps pretty.
Import ListNotations.

Local Open Scope string_scope.
Local Open Scope Z_scope.

(** ** Enumerations

    A C++ unscoped enumeration is an integer type: an object of the type holds
    a number, and a [switch] compares that number with the case labels.  The
    fields are therefore numbers here, and the enumerators are constants. *)

(** [enum HttpState]: no initialisers, so the enumerators count from 0. *)
Definition PARSING_HEADERS : Z := 0.
Definition PARSED_HEADERS : Z := 1.
Definition COMPLETE : Z := 2.
Definition PARSING_BODY_WITH_LENGTH : Z := 3.
Definition PARSING_CHUNKED_BODY : Z := 4.
Definition PARSING_BODY_UNTIL_EOF : Z := 5.
Definition UPGRADED : Z := 6.
Definition ONEHUNDRED_CONTINUE : Z := 7.
Definition ERROR : Z := 8.

(** [enum BodyType]: "Enum values are deliberately chosen so that
    hasRequestBody() can be branchless." *)
Definition RBT_NO_BODY : Z := 0.
Definition RBT_UPGRADE : Z := 1.
Definition RBT_CONTENT_LENGTH : Z := 2.
Definition RBT_CHUNKED : Z := 4.
Definition RBT_UNTIL_EOF : Z := 8.

(** The two declarations as tables: each enumerator's identifier with its
    value, in declaration order. *)
Definition HttpState_enum : list (string * Z) :=
  [ ("PARSING_HEADERS", PARSING_HEADERS);
    ("PARSED_HEADERS", PARSED_HEADERS);
    ("COMPLETE", COMPLETE);
    ("PARSING_BODY_WITH_LENGTH", PARSING_BODY_WITH_LENGTH);
    ("PARSING_CHUNKED_BODY", PARSING_CHUNKED_BODY);
    ("PARSING_BODY_UNTIL_EOF", PARSING_BODY_UNTIL_EOF);
    ("UPGRADED", UPGRADED);
    ("ONEHUNDRED_CONTINUE", ONEHUNDRED_CONTINUE);
    ("ERROR", ERROR) ].

Definition BodyType_enum : list (string * Z) :=
  [ ("RBT_NO_BODY", RBT_NO_BODY);
    ("RBT_UPGRADE", RBT_UPGRADE);
    ("RBT_CONTENT_LENGTH", RBT_CONTENT_LENGTH);
    ("RBT_CHUNKED", RBT_CHUNKED);
    ("RBT_UNTIL_EOF", RBT_UNTIL_EOF) ].

(** A number is a defined enumerator when the declaration lists it. *)
Definition is_HttpState (v : Z) : Prop := In v (map snd HttpState_enum).
Definition is_BodyType (v : Z) : Prop := In v (map snd BodyType_enum).

(** ** Collaborator types *)

(** Modelled from the spec: [ServerKit::HeaderTable] is declared in
    [ServerKit/HeaderTable.h], which is not part of this source tree.  The
    spec describes it as "an append-friendly, fixed-initial-capacity mapping
    from header name to value"; its constructor takes the initial capacity
    and yields an empty table. *)
Record HeaderTable : Type := mkHeaderTable {
  ht_initialSize : Z;
  ht_entries : gmap string string
}.

Definition HeaderTable_ctor (initialSize : Z) : HeaderTable :=
  {| ht_initialSize := initialSize; ht_entries := ∅ |}.

(** Modelled from the spec: [ServerKit::HttpChunkedBodyParserState] is
    declared in [ServerKit/HttpChunkedBodyParserState.h], which is not part
    of this source tree: the "chunked-body-tokenizer state", kept opaque. *)
Record HttpChunkedBodyParserState : Type := mkChunkedState {
  chunked_raw : Z
}.

(** A [ServerKit::HttpHeaderParserState *]: an address, [NULL] being 0. *)
Definition NULL : Z := 0.

(** The anonymous union [parserState], by the member last written. *)
Inductive ParserState : Type :=
| headerParser (p : Z)
| chunkedBodyParser (s : HttpChunkedBodyParserState).

(** ** The [AppResponse] object

    [aux] is an untagged union of a [uint64_t] ([bodyInfo.contentLength]), two
    [bool]s ([bodyInfo.endChunkReached], [bodyInfo.endReached]) and an [int]
    ([parseError]), all at offset 0.  The constructor relies on the overlap
    ("Sets the entire union to 0"), so the field is the union's 8 bytes of
    storage, held as the 64-bit number its widest member reads; the narrower
    members are views of that storage (below). *)
Record AppResponse : Type := mkAppResponse {
  httpMajor : Z;               (* boost::uint8_t *)
  httpMinor : Z;               (* boost::uint8_t *)
  httpState : Z;               (* HttpState httpState: 5 *)
  wantKeepAlive : bool;        (* bool wantKeepAlive: 1 *)
  oneHundredContinueSent : bool;
  hasDateHeader : bool;
  bodyType : Z;                (* BodyType *)
  statusCode : Z;              (* boost::uint16_t *)
  parserState : ParserState;
  headers : HeaderTable;
  secureHeaders : HeaderTable;
  aux : Z;                     (* 8 bytes, 0 <= aux < 2^64 *)
  bodyAlreadyRead : Z          (* boost::uint64_t *)
}.

(** The ranges the declared field types allow. *)
Definition AppResponse_in_range (r : AppResponse) : Prop :=
  0 <= httpMajor r < 2^8 /\ 0 <= httpMinor r < 2^8 /\
  0 <= httpState r < 2^5 /\ 0 <= bodyType r < 2^4 /\
  0 <= statusCode r < 2^16 /\
  0 <= aux r < 2^64 /\ 0 <= bodyAlreadyRead r < 2^64.

(** Field assignments. *)
Definition set_parserState (v : ParserState) (r : AppResponse) : AppResponse :=
  mkAppResponse (httpMajor r) (httpMinor r) (httpState r) (wantKeepAlive r)
    (oneHundredContinueSent r) (hasDateHeader r) (bodyType r) (statusCode r)
    v (headers r) (secureHeaders r) (aux r) (bodyAlreadyRead r).

Definition set_headers (v : HeaderTable) (r : AppResponse) : AppResponse :=
  mkAppResponse (httpMajor r) (httpMinor r) (httpState r) (wantKeepAlive r)
    (oneHundredContinueSent r) (hasDateHeader r) (bodyType r) (statusCode r)
    (parserState r) v (secureHeaders r) (aux r) (bodyAlreadyRead r).

Definition set_secureHeaders (v : HeaderTable) (r : AppResponse) : AppResponse :=
  mkAppResponse (httpMajor r) (httpMinor r) (httpState r) (wantKeepAlive r)
    (oneHundredContinueSent r) (hasDateHeader r) (bodyType r) (statusCode r)
    (parserState r) (headers r) v (aux r) (bodyAlreadyRead r).

Definition set_aux (v : Z) (r : AppResponse) : AppResponse :=
  mkAppResponse (httpMajor r) (httpMinor r) (httpState r) (wantKeepAlive r)
    (oneHundredContinueSent r) (hasDateHeader r) (bodyType r) (statusCode r)
    (parserState r) (headers r) (secureHeaders r) v (bodyAlreadyRead r).

Definition set_bodyAlreadyRead (v : Z) (r : AppResponse) : AppResponse :=
  mkAppResponse (httpMajor r) (httpMinor r) (httpState r) (wantKeepAlive r)
    (oneHundredContinueSent r) (hasDateHeader r) (bodyType r) (statusCode r)
    (parserState r) (headers r) (secureHeaders r) (aux r) v.

(** ** Views of the [aux] union

    [sizeof(bool) = 1] and [sizeof(int) = 4]; every member starts at offset
    0, so which bits of the 64-bit storage a narrow member occupies depends
    on the byte order of the target. *)
Inductive ByteOrder : Type := LittleEndian | BigEndian.

(** The [n] bytes at offset 0 of the storage, as an unsigned number. *)
Definition bytes_at_0 (bo : ByteOrder) (n : Z) (a : Z) : Z :=
  match bo with
  | LittleEndian => Z.land a (Z.ones (8 * n))
  | BigEndian => Z.land (Z.shiftr a (64 - 8 * n)) (Z.ones (8 * n))
  end.

(** [aux.bodyInfo.contentLength]: the whole storage. *)
Definition contentLength (r : AppResponse) : Z := aux r.

(** A [bool] object holds 0 or 1; a byte with another value is not a value
    of the type and reading it is undefined. *)
Definition read_bool (byte : Z) : option bool :=
  if byte =? 0 then Some false
  else if byte =? 1 then Some true
  else None.

(** [aux.bodyInfo.endChunkReached] and [aux.bodyInfo.endReached]. *)
Definition endChunkReached (bo : ByteOrder) (r : AppResponse) : option bool :=
  read_bool (bytes_at_0 bo 1 (aux r)).

Definition endReached (bo : ByteOrder) (r : AppResponse) : option bool :=
  read_bool (bytes_at_0 bo 1 (aux r)).

(** [aux.parseError]: a two's-complement [int]. *)
Definition parseError (bo : ByteOrder) (r : AppResponse) : Z :=
  let u := bytes_at_0 bo 4 (aux r) in
  if u <? 2^31 then u else u - 2^32.

(** [aux.bodyInfo.contentLength = v]: a 64-bit store over the whole union. *)
Definition store_contentLength (v : Z) (r : AppResponse) : AppResponse :=
  set_aux (v mod 2^64) r.

(** ** The constructor

<<
    AppResponse()
        : headers(16), secureHeaders(0), bodyAlreadyRead(0)
    {
        parserState.headerParser = NULL;
        aux.bodyInfo.contentLength = 0; // Sets the entire union to 0.
    }
>>
    The members that have no initialiser ([httpMajor], [httpMinor],
    [httpState], the three flags, [bodyType], [statusCode]) are left
    indeterminate: the constructor fixes no value for them.  [mem] supplies
    the values they turn out to have when the constructor returns, which need
    not be what the storage held before; the constructor reads none of
    them. *)
Definition AppResponse_ctor (mem : AppResponse) : AppResponse :=
  let r := set_headers (HeaderTable_ctor 16) mem in
  let r := set_secureHeaders (HeaderTable_ctor 0) r in
  let r := set_bodyAlreadyRead 0 r in
  let r := set_parserState (headerParser NULL) r in
  store_contentLength 0 r.

(** The objects the constructor may leave behind: one for each choice of the
    indeterminate members. *)
Definition ctor_outcome (r : AppResponse) : Prop :=
  exists mem, r = AppResponse_ctor mem.

(** ** Member functions

    A member function runs on the object and yields a result with the object
    as it leaves it; [None] is undefined behaviour (here: control reaching the
    end of a function that must return a value, or an invalid read). *)
Definition Method (A : Type) : Type := AppResponse -> option (A * AppResponse).

Definition ret {A} (a : A) : Method A := fun r => Some (a, r).

Definition bind {A B} (m : Method A) (k : A -> Method B) : Method B :=
  fun r => match m r with
           | Some (a, r') => k a r'
           | None => None
           end.

(** Reading a member. *)
Definition gets {A} (f : AppResponse -> A) : Method A := fun r => Some (f r, r).

(** Reading a member whose stored bytes may not be a value of its type. *)
Definition load {A} (f : AppResponse -> option A) : Method A :=
  fun r => match f r with
           | Some a => Some (a, r)
           | None => None
           end.

Definition undefined {A} : Method A := fun _ => None.

Notation "x <- m ;; k" := (bind m (fun x => k))
  (at level 100, m at next level, right associativity).

(** A [switch] without a [default] label at the end of a function: the first
    matching case returns; with no match, control flows off the end. *)
Fixpoint switch {A} (v : Z) (cases : list (Z * Method A)) : Method A :=
  match cases with
  | [] => undefined
  | (label, body) :: rest => if v =? label then body else switch v rest
  end.

Definition eval {A} (m : Method A) (r : AppResponse) : option A :=
  option_map fst (m r).

Definition exec {A} (m : Method A) (r : AppResponse) : option AppResponse :=
  option_map snd (m r).

(** [const char *getHttpStateString() const] *)
Definition getHttpStateString : Method string :=
  s <- gets httpState ;;
  switch s
    [ (PARSING_HEADERS, ret "PARSING_HEADERS");
      (PARSED_HEADERS, ret "PARSED_HEADERS");
      (COMPLETE, ret "COMPLETE");
      (PARSING_BODY_WITH_LENGTH, ret "PARSING_BODY_WITH_LENGTH");
      (PARSING_CHUNKED_BODY, ret "PARSING_CHUNKED_BODY");
      (PARSING_BODY_UNTIL_EOF, ret "PARSING_BODY_UNTIL_EOF");
      (UPGRADED, ret "UPGRADED");
      (ONEHUNDRED_CONTINUE, ret "ONEHUNDRED_CONTINUE");
      (ERROR, ret "ERROR") ].

(** [const char *getBodyTypeString() const] *)
Definition getBodyTypeString : Method string :=
  t <- gets bodyType ;;
  switch t
    [ (RBT_NO_BODY, ret "NO_BODY");
      (RBT_UPGRADE, ret "UPGRADE");
      (RBT_CONTENT_LENGTH, ret "CONTENT_LENGTH");
      (RBT_UNTIL_EOF, ret "RBT_UNTIL_EOF");
      (RBT_CHUNKED, ret "CHUNKED") ].

(** [bool bodyFullyRead() const] *)
Definition bodyFullyRead (bo : ByteOrder) : Method bool :=
  t <- gets bodyType ;;
  switch t
    [ (RBT_NO_BODY, ret true);
      (RBT_UPGRADE, ret false);
      (RBT_CONTENT_LENGTH,
         n <- gets bodyAlreadyRead ;;
         len <- gets contentLength ;;
         ret (n >=? len));
      (RBT_CHUNKED, load (endChunkReached bo));
      (RBT_UNTIL_EOF, load (endReached bo)) ].

(** [bool hasBody() const]: the masked number converts to [bool], true when
    it is not zero. *)
Definition hasBody : Method bool :=
  t <- gets bodyType ;;
  ret (negb (Z.land t (Z.lor (Z.lor RBT_CONTENT_LENGTH RBT_CHUNKED) RBT_UNTIL_EOF) =? 0)).

(** [bool canKeepAlive() const]: [&&] evaluates its right operand only when
    the left one is true. *)
Definition canKeepAlive (bo : ByteOrder) : Method bool :=
  w <- gets wantKeepAlive ;;
  if w then bodyFullyRead bo else ret false.

(** A sample object: an HTTP/1.1 200 response with a 10-byte body of which
    [n] bytes were read. *)
Definition sample (n : Z) : AppResponse :=
  {| httpMajor := 1; httpMinor := 1; httpState := PARSING_BODY_WITH_LENGTH;
     wantKeepAlive := true; oneHundredContinueSent := false;
     hasDateHeader := true; bodyType := RBT_CONTENT_LENGTH; statusCode := 200;
     parserState := headerParser NULL;
     headers := HeaderTable_ctor 16; secureHeaders := HeaderTable_ctor 0;
     aux := 10; bodyAlreadyRead := n |}.

(** The case-membership reading of [hasBody], following the words "true iff
    bodyKind is one of CONTENT_LENGTH, CHUNKED, UNTIL_EOF"; compared with the
    bit mask of the source below. *)
Definition hasBody_by_cases (t : Z) : bool :=
  (t =? RBT_CONTENT_LENGTH) || (t =? RBT_CHUNKED) || (t =? RBT_UNTIL_EOF).

(** A member function is read-only when every run that returns leaves the
    object as it found it. *)
Definition read_only {A} (m : Method A) : Prop :=
  forall r a r', m r = Some (a, r') -> r' = r.

(** Two runs from equal objects give equal outcomes. *)
Definition deterministic {A} (m : Method A) : Prop :=
  forall r1 r2, r1 = r2 -> m r1 = m r2.

(** Dropping a leading [RBT_] from an enumerator's identifier. *)
Definition strip_RBT (s : string) : string :=
  if String.prefix "RBT_" s then String.substring 4 (String.length s - 4) s else s.

(** ** [SpawnException] *)

Inductive ErrorKind : Type :=
| UNDEFINED_ERROR
| PRELOADER_STARTUP_PROTOCOL_ERROR
| PRELOADER_STARTUP_TIMEOUT
| PRELOADER_STARTUP_EXPLAINABLE_ERROR
| APP_STARTUP_PROTOCOL_ERROR
| APP_STARTUP_TIMEOUT
| APP_STARTUP_EXPLAINABLE_ERROR.

(** [annotations] is a [std::map<string, string>]: at most one value per
    key. *)
Record SpawnException : Type := mkSpawnException {
  errorKind : ErrorKind;
  msg : string;
  m_hasErrorPage : bool;
  m_isHTML : bool;
  m_errorPage : string;
  preloaderCommand : string;
  annotations : gmap string string
}.

(** [SpawnException(const string &message, ErrorKind errorKind)] *)
Definition SpawnException_ctor (message : string) (kind : ErrorKind) : SpawnException :=
  {| errorKind := kind; msg := message; m_hasErrorPage := false;
     m_isHTML := false; m_errorPage := ""; preloaderCommand := "";
     annotations := ∅ |}.

Definition set_annotations (a : gmap string string) (e : SpawnException) : SpawnException :=
  mkSpawnException (errorKind e) (msg e) (m_hasErrorPage e) (m_isHTML e)
    (m_errorPage e) (preloaderCommand e) a.

(** The loop body [this->annotations[it->first] = it->second], run over the
    visited entries in order: [operator[]] finds or creates the key and the
    assignment overwrites its value. *)
Definition assign_all (entries : list (string * string)) (dst : gmap string string)
    : gmap string string :=
  foldl (fun acc kv => <[kv.1 := kv.2]> acc) dst entries.

(** [void addAnnotations(const map<string, string> &annotations)]: the loop
    visits every entry of the argument once. *)
Definition addAnnotations (m : gmap string string) (e : SpawnException) : SpawnException :=
  set_annotations (assign_all (map_to_list m) (annotations e)) e.

(** [string get(const string &name) const] *)
Definition get (name : string) (e : SpawnException) : string :=
  match annotations e !! name with
  | None => ""
  | Some v => v
  end.

(** [string operator[](const string &name) const] *)
Definition operator_subscript (name : string) (e : SpawnException) : string :=
  get name e.

(** A sample exception carrying two annotations. *)
Definition sample_exception : SpawnException :=
  set_annotations (<["envvars" := "PATH=/bin"]> (<["ulimits" := "none"]> ∅))
    (SpawnException_ctor "spawn failed" APP_STARTUP_TIMEOUT).

(** ** The rest of [SpawnException] *)

(** [std::string::c_str()] read as a C string, which is how the
    [const char *] of [what()] is consumed: the characters before the first
    NUL. *)
Fixpoint c_str (s : string) : string :=
  match s with
  | EmptyString => EmptyString
  | String c rest =>
      if Ascii.eqb c Ascii.zero then EmptyString else String c (c_str rest)
  end.

(** A string without NUL character. *)
Definition nul_free (s : string) : Prop :=
  ~ In Ascii.zero (String.list_ascii_of_string s).

#[global] Instance ErrorKind_eq_dec : EqDecision ErrorKind.
Proof. solve_decision. Defined.

(** [SpawnException(const string &message, const string &errorPage,
    bool isHTML, ErrorKind errorKind)]: with assertions compiled in, a failed
    [assert] aborts the process and no object exists ([None]). *)
Definition SpawnException_ctor_page (message errorPage : string) (isHTML : bool)
    (kind : ErrorKind) : option SpawnException :=
  if negb isHTML
     || bool_decide (kind = UNDEFINED_ERROR)
     || bool_decide (kind = PRELOADER_STARTUP_EXPLAINABLE_ERROR)
     || bool_decide (kind = APP_STARTUP_EXPLAINABLE_ERROR)
  then Some {| errorKind := kind; msg := message; m_hasErrorPage := true;
               m_isHTML := isHTML; m_errorPage := errorPage;
               preloaderCommand := ""; annotations := ∅ |}
  else None.

(** [virtual const char *what() const throw()] *)
Definition what (e : SpawnException) : string := c_str (msg e).

Definition hasErrorPage (e : SpawnException) : bool := m_hasErrorPage e.
Definition getErrorPage (e : SpawnException) : string := m_errorPage e.
Definition isHTML (e : SpawnException) : bool := m_isHTML e.
Definition getErrorKind (e : SpawnException) : ErrorKind := errorKind e.
Definition getPreloaderCommand (e : SpawnException) : string := preloaderCommand e.
Definition getAnnotations (e : SpawnException) : gmap string string := annotations e.

(** [SpawnException &setPreloaderCommand(const string &filename)]: assigns
    the member and returns the object. *)
Definition setPreloaderCommand (filename : string) (e : SpawnException) : SpawnException :=
  mkSpawnException (errorKind e) (msg e) (m_hasErrorPage e) (m_isHTML e)
    (m_errorPage e) filename (annotations e).

(** The two mutators of the class, and a run of calls to them. *)
Inductive SpawnOp : Type :=
| CallSetPreloaderCommand (filename : string)
| CallAddAnnotations (m : gmap string string).

Definition run_op (e : SpawnException) (op : SpawnOp) : SpawnException :=
  match op with
  | CallSetPreloaderCommand filename => setPreloaderCommand filename e
  | CallAddAnnotations m => addAnnotations m e
  end.

Definition run_ops (ops : list SpawnOp) (e : SpawnException) : SpawnException :=
  foldl run_op e ops.

(** The error kinds the assertion admits together with an HTML page. *)
Definition html_kind (kind : ErrorKind) : Prop :=
  kind = UNDEFINED_ERROR \/ kind = PRELOADER_STARTUP_EXPLAINABLE_ERROR \/
  kind = APP_STARTUP_EXPLAINABLE_ERROR.

(** An exception as one of the two constructors leaves it. *)
Definition constructed (e : SpawnException) : Prop :=
  (exists message kind, e = SpawnException_ctor message kind) \/
  (exists message errorPage html kind,
     SpawnException_ctor_page message errorPage html kind = Some e).

(** ** [SystemException] *)

Module SystemException.

Record t : Type := mk {
  briefMessage : string;
  systemMessage : string;
  fullMessage : string;
  m_code : Z                   (* int *)
}.

(** [void setBriefMessage(const string &message)] *)
Definition setBriefMessage (message : string) (e : t) : t :=
  let e := mk message (systemMessage e) (fullMessage e) (m_code e) in
  mk (briefMessage e) (systemMessage e)
     ((briefMessage e +:+ ": ") +:+ systemMessage e) (m_code e).

Section WithLibc.

(** [strerror] belongs to the C library; the text it gives for a code is a
    parameter. *)
Variable strerror : Z -> string.

(** [SystemException(const string &briefMessage, int errorCode)]: the
    strings start empty; [m_code] has no value until the last statement
    assigns it (0 stands for the unread garbage).  The stream prints an [int]
    in decimal. *)
Definition ctor (briefMessage : string) (errorCode : Z) : t :=
  let str := ((strerror errorCode +:+ " (errno=") +:+ pretty errorCode) +:+ ")" in
  let e := mk "" str "" 0 in
  let e := setBriefMessage briefMessage e in
  mk (SystemException.briefMessage e) (systemMessage e) (fullMessage e) errorCode.

(** The objects a program can hold: constructed, then renamed any number of
    times. *)
Inductive reachable : t -> Prop :=
| reachable_ctor briefMessage errorCode : reachable (ctor briefMessage errorCode)
| reachable_set message e : reachable e -> reachable (setBriefMessage message e).

End WithLibc.

(** [virtual const char *what() const throw()] *)
Definition what (e : t) : string := c_str (fullMessage e).

(** [int code() const throw()] *)
Definition code (e : t) : Z := m_code e.

(** [string brief() const throw()] *)
Definition brief (e : t) : string := briefMessage e.

(** [string sys() const throw()] *)
Definition sys (e : t) : string := systemMessage e.

End SystemException.

(** Storage whose [bodyType] bits are no enumerator and whose union holds
    leftovers. *)
Definition stale : AppResponse :=
  mkAppResponse 1 1 COMPLETE false false true 3 200
    (headerParser NULL) (HeaderTable_ctor 16) (HeaderTable_ctor 0) 77 0.

(** A C library that knows one message. *)
Definition sample_strerror (code : Z) : string :=
  if code =? 9 then "Bad file descriptor" else "Unknown error".

(** * Properties *)

(** ** The definitions at work *)

Example sample_3 : eval (bodyFullyRead LittleEndian) (sample 3) = Some false.
Proof. reflexivity. Qed.

Example sample_10 : eval (canKeepAlive BigEndian) (sample 10) = Some true.
Proof. reflexivity. Qed.

(** A chunked response whose union still holds a length of 10: on a
    little-endian target the flag's byte is 10, which is no [bool]. *)
Example chunked_over_length :
  eval (bodyFullyRead LittleEndian)
       (mkAppResponse 1 1 PARSING_CHUNKED_BODY true false true RBT_CHUNKED 200
          (headerParser NULL) (HeaderTable_ctor 16) (HeaderTable_ctor 0) 10 0)
  = None.
Proof. reflexivity. Qed.

Example sample_exception_get : get "ulimits" sample_exception = "none".
Proof. reflexivity. Qed.

Example sample_exception_add :
  get "ulimits" (addAnnotations (<["ulimits" := "core=0"]> ∅) sample_exception) = "core=0".
Proof. vm_compute. reflexivity. Qed.

Example strip_RBT_chunked : strip_RBT "RBT_CHUNKED" = "CHUNKED".
Proof. reflexivity. Qed.

(** ** The [switch] statement *)

Lemma switch_cons {A} (v label : Z) (body : Method A) rest :
  switch v ((label, body) :: rest) = if v =? label then body else switch v rest.
Proof. reflexivity. Qed.

(** A value among the labels, listed once, selects its case. *)
Lemma switch_hit {A} (v : Z) (body : Method A) cases :
  NoDup (map fst cases) -> In (v, body) cases -> switch v cases = body.
Proof.
  induction cases as [|[label b] rest IH]; intros Hnd Hin.
  - destruct Hin.
  - rewrite switch_cons. apply NoDup_cons in Hnd as [Hfresh Hnd].
    destruct Hin as [Heq | Hin].
    + injection Heq as -> ->. now rewrite Z.eqb_refl.
    + destruct (Z.eqb_spec v label) as [-> | _]; [|now apply IH].
      exfalso. apply Hfresh. apply list_elem_of_In.
      exact (in_map fst rest (label, body) Hin).
Qed.

(** A value that is no label runs off the end of the function. *)
Lemma switch_miss {A} (v : Z) (cases : list (Z * Method A)) :
  ~ In v (map fst cases) -> switch v cases = undefined.
Proof.
  induction cases as [|[label b] rest IH]; intros Hout; [reflexivity|].
  rewrite switch_cons. destruct (Z.eqb_spec v label) as [-> | _].
  - exfalso. apply Hout. now left.
  - apply IH. intros Hin. apply Hout. now right.
Qed.

(** ** Read-only member functions *)

Lemma read_only_ret {A} (a : A) : read_only (ret a).
Proof. intros r a' r' H. now injection H as _ <-. Qed.

Lemma read_only_gets {A} (f : AppResponse -> A) : read_only (gets f).
Proof. intros r a' r' H. now injection H as _ <-. Qed.

Lemma read_only_load {A} (f : AppResponse -> option A) : read_only (load f).
Proof.
  intros r a' r' H. unfold load in H.
  destruct (f r); [now injection H as _ <- | discriminate].
Qed.

Lemma read_only_undefined {A} : read_only (@undefined A).
Proof. intros r a r' H. discriminate. Qed.

Lemma read_only_bind {A B} (m : Method A) (k : A -> Method B) :
  read_only m -> (forall a, read_only (k a)) -> read_only (bind m k).
Proof.
  intros Hm Hk r b r' H. unfold bind in H.
  destruct (m r) as [[a r1]|] eqn:E; [|discriminate].
  apply Hm in E. subst r1. now apply Hk in H.
Qed.

Lemma read_only_switch {A} (v : Z) (cases : list (Z * Method A)) :
  Forall (fun c => read_only (snd c)) cases -> read_only (switch v cases).
Proof.
  induction 1 as [|[label body] rest Hbody _ IH].
  - apply read_only_undefined.
  - rewrite switch_cons. now destruct (v =? label).
Qed.

Lemma read_only_if {A} (c : bool) (m1 m2 : Method A) :
  read_only m1 -> read_only m2 -> read_only (if c then m1 else m2).
Proof. now destruct c. Qed.

Create HintDb read_only_db.
#[local] Hint Resolve read_only_ret read_only_gets read_only_load
  read_only_undefined read_only_if : read_only_db.

Ltac solve_read_only :=
  repeat first
    [ apply read_only_bind; [|intro]
    | apply read_only_switch; repeat constructor; simpl
    | solve [auto with read_only_db] ].

Lemma read_only_getHttpStateString : read_only getHttpStateString.
Proof. unfold getHttpStateString. solve_read_only. Qed.

Lemma read_only_getBodyTypeString : read_only getBodyTypeString.
Proof. unfold getBodyTypeString. solve_read_only. Qed.

Lemma read_only_bodyFullyRead bo : read_only (bodyFullyRead bo).
Proof. unfold bodyFullyRead. solve_read_only. Qed.

Lemma read_only_hasBody : read_only hasBody.
Proof. unfold hasBody. solve_read_only. Qed.

Lemma read_only_canKeepAlive bo : read_only (canKeepAlive bo).
Proof.
  unfold canKeepAlive. apply read_only_bind; [apply read_only_gets|].
  intros w. apply read_only_if; [apply read_only_bodyFullyRead | apply read_only_ret].
Qed.

(** What a read-only call returns is all there is to know about it. *)
Lemma read_only_run {A} (m : Method A) r :
  read_only m -> m r = option_map (fun a => (a, r)) (eval m r).
Proof.
  intros Hm. unfold eval. destruct (m r) as [[a r']|] eqn:E; [|reflexivity].
  apply Hm in E. now subst.
Qed.

(** ** [bodyFullyRead], [hasBody], [canKeepAlive] *)

Lemma eval_bind_gets {A B} (f : AppResponse -> A) (k : A -> Method B) r :
  eval (x <- gets f ;; k x) r = eval (k (f r)) r.
Proof. reflexivity. Qed.

Lemma eval_load {A} (f : AppResponse -> option A) r : eval (load f) r = f r.
Proof. unfold eval, load. now destruct (f r). Qed.

(** The [RBT_CONTENT_LENGTH] case is a comparison of the two counters. *)
Lemma eval_bodyFullyRead_length (bo : ByteOrder) (r : AppResponse) :
  bodyType r = RBT_CONTENT_LENGTH ->
  eval (bodyFullyRead bo) r = Some (bodyAlreadyRead r >=? contentLength r).
Proof.
  intros Ht. unfold bodyFullyRead. rewrite eval_bind_gets, Ht. reflexivity.
Qed.

(** C2: [bodyFullyRead()] by case on [bodyType]: [RBT_NO_BODY] gives true and
    [RBT_UPGRADE] gives false whatever the other fields hold;
    [RBT_CONTENT_LENGTH] gives [bodyAlreadyRead >= contentLength];
    [RBT_CHUNKED] gives the [endChunkReached] flag and [RBT_UNTIL_EOF] the
    [endReached] flag. *)
Theorem bodyFullyRead_cases (bo : ByteOrder) (r : AppResponse) :
  (bodyType r = RBT_NO_BODY -> eval (bodyFullyRead bo) r = Some true) /\
  (bodyType r = RBT_UPGRADE -> eval (bodyFullyRead bo) r = Some false) /\
  (bodyType r = RBT_CONTENT_LENGTH ->
     eval (bodyFullyRead bo) r = Some (bodyAlreadyRead r >=? contentLength r)) /\
  (bodyType r = RBT_CHUNKED -> eval (bodyFullyRead bo) r = endChunkReached bo r) /\
  (bodyType r = RBT_UNTIL_EOF -> eval (bodyFullyRead bo) r = endReached bo r).
Proof.
  split; [|split; [|split; [|split]]].
  - intros Ht. unfold bodyFullyRead. rewrite eval_bind_gets, Ht. reflexivity.
  - intros Ht. unfold bodyFullyRead. rewrite eval_bind_gets, Ht. reflexivity.
  - apply eval_bodyFullyRead_length.
  - intros Ht. unfold bodyFullyRead. rewrite eval_bind_gets, Ht. apply eval_load.
  - intros Ht. unfold bodyFullyRead. rewrite eval_bind_gets, Ht. apply eval_load.
Qed.

Lemma bodyFullyRead_cases_witness :
  eval (bodyFullyRead LittleEndian) (sample 10) = Some true.
Proof.
  destruct (bodyFullyRead_cases LittleEndian (sample 10)) as (_ & _ & H & _).
  exact (H eq_refl).
Defined.

(** C1: [canKeepAlive()] returns true exactly when [wantKeepAlive] is true
    and [bodyFullyRead()] returns true; for each of the four combinations of
    the two it returns their conjunction, and it never returns true while
    [bodyFullyRead()] is false. *)
Theorem canKeepAlive_iff (bo : ByteOrder) (r : AppResponse) :
  (eval (canKeepAlive bo) r = Some true <->
     wantKeepAlive r = true /\ eval (bodyFullyRead bo) r = Some true) /\
  (forall w b : bool,
     wantKeepAlive r = w -> eval (bodyFullyRead bo) r = Some b ->
     eval (canKeepAlive bo) r = Some (w && b)) /\
  (eval (bodyFullyRead bo) r = Some false -> eval (canKeepAlive bo) r <> Some true).
Proof.
  unfold canKeepAlive. rewrite eval_bind_gets.
  destruct (wantKeepAlive r); repeat split.
  - assumption.
  - now intros [_ H].
  - now intros w b <- ->.
  - intros -> H. discriminate.
  - discriminate.
  - discriminate.
  - now intros [H _].
  - now intros w b <- _.
  - discriminate.
Qed.

Lemma canKeepAlive_iff_witness :
  eval (canKeepAlive BigEndian) (sample 10) = Some (true && true).
Proof.
  destruct (canKeepAlive_iff BigEndian (sample 10)) as (_ & H & _).
  apply H; reflexivity.
Defined.

(** C3: with [bodyType == RBT_CONTENT_LENGTH] and a strictly positive
    [contentLength], [bodyFullyRead()] is false while
    [bodyAlreadyRead < contentLength] and true from
    [bodyAlreadyRead >= contentLength] on; so it is monotone in
    [bodyAlreadyRead] (once true it stays true as the counter grows) and
    false at [bodyAlreadyRead == 0]. *)
Theorem bodyFullyRead_content_length (bo : ByteOrder) (r : AppResponse) :
  bodyType r = RBT_CONTENT_LENGTH ->
  0 < contentLength r ->
  (bodyAlreadyRead r < contentLength r -> eval (bodyFullyRead bo) r = Some false) /\
  (bodyAlreadyRead r >= contentLength r -> eval (bodyFullyRead bo) r = Some true) /\
  (forall n n' : Z,
     n <= n' ->
     eval (bodyFullyRead bo) (set_bodyAlreadyRead n r) = Some true ->
     eval (bodyFullyRead bo) (set_bodyAlreadyRead n' r) = Some true) /\
  eval (bodyFullyRead bo) (set_bodyAlreadyRead 0 r) = Some false.
Proof.
  intros Ht Hpos.
  assert (Hat : forall n, eval (bodyFullyRead bo) (set_bodyAlreadyRead n r)
                          = Some (n >=? contentLength r)).
  { intros n. now rewrite eval_bodyFullyRead_length. }
  rewrite (eval_bodyFullyRead_length bo r Ht).
  repeat split.
  - intros Hlt. f_equal. rewrite Z.geb_leb. apply Z.leb_gt. lia.
  - intros Hge. f_equal. rewrite Z.geb_leb. apply Z.leb_le. lia.
  - intros n n' Hle. rewrite !Hat, !Z.geb_leb. intros [= Hn%Z.leb_le].
    f_equal. apply Z.leb_le. lia.
  - rewrite Hat, Z.geb_leb. f_equal. apply Z.leb_gt. lia.
Qed.

Lemma bodyFullyRead_content_length_witness :
  eval (bodyFullyRead LittleEndian) (set_bodyAlreadyRead 0 (sample 7)) = Some false.
Proof.
  assert (Ht : bodyType (sample 7) = RBT_CONTENT_LENGTH) by reflexivity.
  assert (Hpos : 0 < contentLength (sample 7)) by reflexivity.
  exact (proj2 (proj2 (proj2
    (bodyFullyRead_content_length LittleEndian (sample 7) Ht Hpos)))).
Defined.

(** The five enumerators of [BodyType] are 0, 1, 2, 4, 8: no two of them
    share a bit. *)
Lemma BodyType_values : map snd BodyType_enum = [0; 1; 2; 4; 8].
Proof. reflexivity. Qed.

Lemma is_BodyType_inv (v : Z) :
  is_BodyType v ->
  v = RBT_NO_BODY \/ v = RBT_UPGRADE \/ v = RBT_CONTENT_LENGTH \/
  v = RBT_CHUNKED \/ v = RBT_UNTIL_EOF.
Proof. unfold is_BodyType. simpl. intuition auto. Qed.

(** C4: on the five enumerators [hasBody()] is true exactly for
    [RBT_CONTENT_LENGTH], [RBT_CHUNKED] and [RBT_UNTIL_EOF], and false for
    [RBT_NO_BODY] and [RBT_UPGRADE]; the bit mask of the source agrees with
    the definition by case membership, the enumerators having the pairwise
    bit-disjoint values 0, 1, 2, 4, 8. *)
Theorem hasBody_iff (r : AppResponse) :
  is_BodyType (bodyType r) ->
  (eval hasBody r = Some true <->
     bodyType r = RBT_CONTENT_LENGTH \/ bodyType r = RBT_CHUNKED \/
     bodyType r = RBT_UNTIL_EOF) /\
  (bodyType r = RBT_NO_BODY \/ bodyType r = RBT_UPGRADE -> eval hasBody r = Some false) /\
  eval hasBody r = Some (hasBody_by_cases (bodyType r)) /\
  map snd BodyType_enum = [0; 1; 2; 4; 8] /\
  (forall a b : Z, is_BodyType a -> is_BodyType b -> a <> b -> Z.land a b = 0).
Proof.
  intros Hv. unfold hasBody. rewrite eval_bind_gets.
  split; [|split; [|split; [|split]]].
  - apply is_BodyType_inv in Hv.
    destruct Hv as [-> | [-> | [-> | [-> | ->]]]]; cbn; split;
      try discriminate; intuition (auto; discriminate).
  - intros [-> | ->]; reflexivity.
  - apply is_BodyType_inv in Hv.
    destruct Hv as [-> | [-> | [-> | [-> | ->]]]]; reflexivity.
  - reflexivity.
  - intros a b Ha%is_BodyType_inv Hb%is_BodyType_inv Hne.
    destruct Ha as [-> | [-> | [-> | [-> | ->]]]];
      destruct Hb as [-> | [-> | [-> | [-> | ->]]]];
      first [reflexivity | now contradiction Hne].
Qed.

(** The hypothesis matters: 3 is a value the field's type can hold but no
    enumerator, and the mask then differs from the case reading. *)
Example hasBody_outside_enum :
  let r := mkAppResponse 1 1 COMPLETE true false true 3 200
             (headerParser NULL) (HeaderTable_ctor 16) (HeaderTable_ctor 0) 0 0 in
  ~ is_BodyType (bodyType r) /\
  eval hasBody r = Some true /\ hasBody_by_cases (bodyType r) = false.
Proof.
  cbv zeta. split; [|split; reflexivity].
  unfold is_BodyType. simpl. intuition discriminate.
Qed.

Lemma hasBody_iff_witness :
  eval hasBody (sample 0) = Some (hasBody_by_cases (bodyType (sample 0))).
Proof.
  assert (Hv : is_BodyType (bodyType (sample 0))).
  { unfold is_BodyType. simpl. auto. }
  exact (proj1 (proj2 (proj2 (hasBody_iff (sample 0) Hv)))).
Defined.

(** ** The diagnostic renderers *)

Lemma is_HttpState_inv (v : Z) :
  is_HttpState v ->
  v = PARSING_HEADERS \/ v = PARSED_HEADERS \/ v = COMPLETE \/
  v = PARSING_BODY_WITH_LENGTH \/ v = PARSING_CHUNKED_BODY \/
  v = PARSING_BODY_UNTIL_EOF \/ v = UPGRADED \/ v = ONEHUNDRED_CONTINUE \/
  v = ERROR.
Proof. unfold is_HttpState. simpl. intuition auto. Qed.

(** Each renderer names the enumerator it is given. *)
Lemma getHttpStateString_name (r : AppResponse) (name : string) (v : Z) :
  In (name, v) HttpState_enum -> httpState r = v ->
  eval getHttpStateString r = Some name.
Proof.
  intros Hin Hv. unfold getHttpStateString. rewrite eval_bind_gets, Hv.
  simpl in Hin.
  repeat (destruct Hin as [[= <- <-] | Hin]; [reflexivity|]).
  destruct Hin.
Qed.

Lemma getBodyTypeString_some (r : AppResponse) :
  is_BodyType (bodyType r) -> exists s, eval getBodyTypeString r = Some s.
Proof.
  intros Hv%is_BodyType_inv. unfold getBodyTypeString. rewrite eval_bind_gets.
  destruct Hv as [-> | [-> | [-> | [-> | ->]]]]; eexists; reflexivity.
Qed.

(** Outside the enumeration both run off the end. *)
Lemma getHttpStateString_none (r : AppResponse) :
  ~ is_HttpState (httpState r) -> eval getHttpStateString r = None.
Proof.
  intros Hout. unfold getHttpStateString. rewrite eval_bind_gets.
  rewrite switch_miss; [reflexivity | exact Hout].
Qed.

Lemma getBodyTypeString_none (r : AppResponse) :
  ~ is_BodyType (bodyType r) -> eval getBodyTypeString r = None.
Proof.
  intros Hout. unfold getBodyTypeString. rewrite eval_bind_gets.
  rewrite switch_miss; [reflexivity|].
  intros Hin. apply Hout. unfold is_BodyType. simpl in *. intuition auto.
Qed.

(** C6: on each of the nine [HttpState] enumerators [getHttpStateString()]
    returns a (non-null) string, the enumerator's name, and on each of the
    five [BodyType] enumerators [getBodyTypeString()] returns a (non-null)
    string; control runs off the end of either function exactly for the
    values outside its enumeration. *)
Theorem renderers_total (r : AppResponse) :
  (forall name v, In (name, v) HttpState_enum -> httpState r = v ->
     eval getHttpStateString r = Some name) /\
  (is_HttpState (httpState r) -> exists s, eval getHttpStateString r = Some s) /\
  (is_BodyType (bodyType r) -> exists s, eval getBodyTypeString r = Some s) /\
  (eval getHttpStateString r = None <-> ~ is_HttpState (httpState r)) /\
  (eval getBodyTypeString r = None <-> ~ is_BodyType (bodyType r)).
Proof.
  assert (Hstate : is_HttpState (httpState r) ->
                   exists s, eval getHttpStateString r = Some s).
  { intros Hv. unfold is_HttpState in Hv. apply in_map_iff in Hv.
    destruct Hv as [[name v] [Hv Hin]]. simpl in Hv. exists name.
    now apply (getHttpStateString_name r name v). }
  split; [|split; [|split; [|split]]].
  - intros name v. apply getHttpStateString_name.
  - exact Hstate.
  - apply getBodyTypeString_some.
  - split; [|apply getHttpStateString_none].
    intros Hnone Hv. destruct (Hstate Hv) as [s Hs]. congruence.
  - split; [|apply getBodyTypeString_none].
    intros Hnone Hv. destruct (getBodyTypeString_some r Hv) as [s Hs]. congruence.
Qed.

Lemma renderers_total_witness :
  eval getHttpStateString (sample 0) = Some "PARSING_BODY_WITH_LENGTH".
Proof.
  apply (proj1 (renderers_total (sample 0))
           "PARSING_BODY_WITH_LENGTH" PARSING_BODY_WITH_LENGTH).
  - simpl. auto.
  - reflexivity.
Defined.

(** C8: [getBodyTypeString()] returns "NO_BODY", "UPGRADE", "CONTENT_LENGTH"
    and "CHUNKED" for the four enumerators of those names with [RBT_]
    dropped, and "RBT_UNTIL_EOF", prefix kept, for [RBT_UNTIL_EOF]. *)
Theorem getBodyTypeString_names (r : AppResponse) :
  (bodyType r = RBT_NO_BODY -> eval getBodyTypeString r = Some "NO_BODY") /\
  (bodyType r = RBT_UPGRADE -> eval getBodyTypeString r = Some "UPGRADE") /\
  (bodyType r = RBT_CONTENT_LENGTH ->
     eval getBodyTypeString r = Some "CONTENT_LENGTH") /\
  (bodyType r = RBT_CHUNKED -> eval getBodyTypeString r = Some "CHUNKED") /\
  (bodyType r = RBT_UNTIL_EOF -> eval getBodyTypeString r = Some "RBT_UNTIL_EOF") /\
  (forall name v, In (name, v) BodyType_enum -> bodyType r = v ->
     eval getBodyTypeString r =
       Some (if v =? RBT_UNTIL_EOF then name else strip_RBT name)) /\
  strip_RBT "RBT_UNTIL_EOF" <> "RBT_UNTIL_EOF".
Proof.
  unfold getBodyTypeString. rewrite eval_bind_gets.
  repeat split; try (intros ->; reflexivity).
  - intros name v Hin ->. simpl in Hin.
    repeat (destruct Hin as [[= <- <-] | Hin]; [reflexivity|]).
    destruct Hin.
  - discriminate.
Qed.

Lemma getBodyTypeString_names_witness :
  eval getBodyTypeString (sample 0) = Some "CONTENT_LENGTH".
Proof.
  destruct (getBodyTypeString_names (sample 0)) as (_ & _ & H & _).
  exact (H eq_refl).
Defined.

(** ** Purity of the queries *)

(** C7: [bodyFullyRead()], [hasBody()], [canKeepAlive()],
    [getHttpStateString()] and [getBodyTypeString()] each leave the object
    exactly as they found it, and two runs from equal objects give equal
    results. *)
Theorem queries_pure (bo : ByteOrder) :
  (read_only (bodyFullyRead bo) /\ read_only hasBody /\
   read_only (canKeepAlive bo) /\ read_only getHttpStateString /\
   read_only getBodyTypeString) /\
  (forall r1 r2 : AppResponse,
     r1 = r2 ->
     eval (bodyFullyRead bo) r1 = eval (bodyFullyRead bo) r2 /\
     eval hasBody r1 = eval hasBody r2 /\
     eval (canKeepAlive bo) r1 = eval (canKeepAlive bo) r2 /\
     eval getHttpStateString r1 = eval getHttpStateString r2 /\
     eval getBodyTypeString r1 = eval getBodyTypeString r2).
Proof.
  split.
  - repeat split.
    + apply read_only_bodyFullyRead.
    + apply read_only_hasBody.
    + apply read_only_canKeepAlive.
    + apply read_only_getHttpStateString.
    + apply read_only_getBodyTypeString.
  - intros r1 r2 <-. repeat split.
Qed.

Lemma queries_pure_witness :
  canKeepAlive LittleEndian (sample 10) = Some (true, sample 10) /\
  (forall r', canKeepAlive LittleEndian (sample 10) = Some (true, r') -> r' = sample 10) /\
  eval hasBody (sample 10) = eval hasBody (set_bodyAlreadyRead 10 (sample 3)).
Proof.
  destruct (queries_pure LittleEndian) as [(_ & _ & Hk & _) Hdet].
  split; [reflexivity|]. split.
  - intros r' Hrun. exact (Hk _ _ _ Hrun).
  - assert (Heq : sample 10 = set_bodyAlreadyRead 10 (sample 3)) by reflexivity.
    exact (proj1 (proj2 (Hdet _ _ Heq))).
Defined.

(** ** The constructor *)

Lemma bytes_at_0_zero (bo : ByteOrder) (n : Z) : bytes_at_0 bo n 0 = 0.
Proof. destruct bo; unfold bytes_at_0; now rewrite ?Z.shiftr_0_l, Z.land_0_l. Qed.

(** The constructor may leave an object that is not in [PARSING_HEADERS]:
    here the members it does not assign come out as those of a response in
    the middle of its body. *)
Lemma ctor_httpState_not_initial :
  httpState (AppResponse_ctor (sample 3)) <> PARSING_HEADERS.
Proof. discriminate. Qed.

(** The constructor fixes the five members it assigns and nothing else. *)
Lemma ctor_outcome_iff (r : AppResponse) :
  ctor_outcome r <->
  headers r = HeaderTable_ctor 16 /\ secureHeaders r = HeaderTable_ctor 0 /\
  bodyAlreadyRead r = 0 /\ parserState r = headerParser NULL /\ aux r = 0.
Proof.
  split.
  - intros [mem ->]. repeat split.
  - intros (Hh & Hs & Hn & Hp & Ha). exists r.
    destruct r; cbn in *. subst. reflexivity.
Qed.

(** C5 (as the code has it): the constructor assigns no value to
    [httpState], so it guarantees none: every value of the 5-bit field is the
    [httpState] of some object the constructor may leave behind, and
    [PARSING_HEADERS] in particular is not what every such object holds. *)
Theorem ctor_httpState_indeterminate :
  (forall v : Z, 0 <= v < 2^5 -> exists r, ctor_outcome r /\ httpState r = v) /\
  ~ (forall r, ctor_outcome r -> httpState r = PARSING_HEADERS).
Proof.
  assert (Hany : forall v : Z, exists r, ctor_outcome r /\ httpState r = v).
  { intros v.
    exists (mkAppResponse 0 0 v false false false RBT_NO_BODY 0
              (headerParser NULL) (HeaderTable_ctor 16) (HeaderTable_ctor 0) 0 0).
    split; [|reflexivity]. apply ctor_outcome_iff. repeat split. }
  split.
  - intros v _. apply Hany.
  - intros Hall. destruct (Hany ERROR) as (r & Hr & Hv).
    apply Hall in Hr. rewrite Hr in Hv. discriminate Hv.
Qed.

Lemma ctor_httpState_indeterminate_witness :
  exists r, ctor_outcome r /\ httpState r = ERROR.
Proof.
  apply (proj1 ctor_httpState_indeterminate ERROR).
  unfold ERROR. lia.
Defined.

(** The constructor writes values of the written fields' types, so storage
    within the declared ranges stays within them. *)
Lemma ctor_in_range (mem : AppResponse) :
  AppResponse_in_range mem -> AppResponse_in_range (AppResponse_ctor mem).
Proof.
  unfold AppResponse_in_range.
  change (aux (AppResponse_ctor mem)) with 0.
  change (bodyAlreadyRead (AppResponse_ctor mem)) with 0.
  change (httpMajor (AppResponse_ctor mem)) with (httpMajor mem).
  change (httpMinor (AppResponse_ctor mem)) with (httpMinor mem).
  change (httpState (AppResponse_ctor mem)) with (httpState mem).
  change (bodyType (AppResponse_ctor mem)) with (bodyType mem).
  change (statusCode (AppResponse_ctor mem)) with (statusCode mem).
  lia.
Qed.

(** C9: after the constructor, [bodyAlreadyRead == 0],
    [parserState.headerParser == NULL], the whole [aux] union is zero (so
    [contentLength == 0], [endChunkReached] and [endReached] are false and
    [parseError == 0]), [headers] was built with initial size 16 and
    [secureHeaders] with initial size 0; [httpState] and [bodyType] are not
    assigned, they are as [mem] supplies them. *)
Theorem ctor_postconditions (bo : ByteOrder) (mem : AppResponse) :
  let r := AppResponse_ctor mem in
  bodyAlreadyRead r = 0 /\
  parserState r = headerParser NULL /\
  aux r = 0 /\
  contentLength r = 0 /\
  endChunkReached bo r = Some false /\
  endReached bo r = Some false /\
  parseError bo r = 0 /\
  headers r = HeaderTable_ctor 16 /\ ht_initialSize (headers r) = 16 /\
  secureHeaders r = HeaderTable_ctor 0 /\ ht_initialSize (secureHeaders r) = 0 /\
  httpState r = httpState mem /\
  bodyType r = bodyType mem.
Proof.
  cbv zeta. unfold endChunkReached, endReached, parseError, contentLength.
  assert (Haux : aux (AppResponse_ctor mem) = 0) by reflexivity.
  rewrite Haux, !bytes_at_0_zero. repeat split.
Qed.

(** ** [SpawnException] annotations *)

Lemma assign_all_cons (k v : string) (l : list (string * string))
    (dst : gmap string string) :
  assign_all ((k, v) :: l) dst = assign_all l (<[k := v]> dst).
Proof. reflexivity. Qed.

(** Visiting entries with distinct keys assigns each key its value and
    touches no other key, in whatever order the entries come. *)
Lemma assign_all_lookup (l : list (string * string)) :
  forall (dst : gmap string string) (k : string),
  NoDup l.*1 ->
  assign_all l dst !! k =
    match (list_to_map l : gmap string string) !! k with
    | Some v => Some v
    | None => dst !! k
    end.
Proof.
  induction l as [|[k0 v0] l IH]; intros dst k Hnd.
  - reflexivity.
  - rewrite assign_all_cons. cbn [fmap list_fmap fst] in Hnd.
    apply NoDup_cons in Hnd as [Hfresh Hnd].
    rewrite IH by exact Hnd. cbn [list_to_map foldr uncurry].
    destruct (decide (k0 = k)) as [-> | Hne].
    + rewrite !lookup_insert_eq.
      now rewrite (not_elem_of_list_to_map_1 (M := gmap string) l k Hfresh).
    + now rewrite !lookup_insert_ne by exact Hne.
Qed.

Lemma assign_all_map_lookup (m dst : gmap string string) (k : string) :
  assign_all (map_to_list m) dst !! k =
    match m !! k with
    | Some v => Some v
    | None => dst !! k
    end.
Proof.
  rewrite assign_all_lookup by apply NoDup_fst_map_to_list.
  now rewrite list_to_map_to_list.
Qed.

(** The loop computes the union that prefers the argument's entries; any
    enumeration of the argument gives the same map, the ascending key order
    of [std::map] included. *)
Lemma assign_all_union (l : list (string * string)) (m dst : gmap string string) :
  NoDup l.*1 -> list_to_map l = m -> assign_all l dst = m ∪ dst.
Proof.
  intros Hnd <-. apply map_eq. intros k.
  rewrite assign_all_lookup by exact Hnd. rewrite lookup_union.
  destruct (list_to_map l !! k), (dst !! k); reflexivity.
Qed.

Lemma get_lookup (name : string) (e : SpawnException) :
  get name e = default "" (annotations e !! name).
Proof. unfold get. now destruct (annotations e !! name). Qed.

(** C10: [get(name)] returns the stored value of a present annotation and
    the empty string for an absent one; [operator[]] returns what [get]
    returns; after [addAnnotations(m)] every key of [m] carries [m]'s value,
    whatever was stored under it before, and every other key is as it was. *)
Theorem annotations_get_add (e : SpawnException) (name : string) :
  (forall v, annotations e !! name = Some v -> get name e = v) /\
  (annotations e !! name = None -> get name e = "") /\
  operator_subscript name e = get name e /\
  (forall m : gmap string string,
     (forall v, m !! name = Some v ->
        annotations (addAnnotations m e) !! name = Some v /\
        get name (addAnnotations m e) = v) /\
     (m !! name = None ->
        annotations (addAnnotations m e) !! name = annotations e !! name /\
        get name (addAnnotations m e) = get name e)).
Proof.
  split; [|split; [|split]].
  - intros v Hv. unfold get. now rewrite Hv.
  - intros Hv. unfold get. now rewrite Hv.
  - reflexivity.
  - intros m.
    assert (Hl : annotations (addAnnotations m e) !! name =
                 match m !! name with
                 | Some v => Some v
                 | None => annotations e !! name
                 end) by apply assign_all_map_lookup.
    split.
    + intros v Hv. rewrite Hv in Hl. rewrite get_lookup, Hl. now split.
    + intros Hv. rewrite Hv in Hl. rewrite !get_lookup, Hl. now split.
Qed.

Lemma annotations_get_add_witness :
  get "ulimits" (addAnnotations (<["ulimits" := "core=0"]> ∅) sample_exception) = "core=0" /\
  get "envvars" (addAnnotations (<["ulimits" := "core=0"]> ∅) sample_exception) = "PATH=/bin" /\
  get "missing" sample_exception = "".
Proof.
  split; [|split].
  - destruct (annotations_get_add sample_exception "ulimits") as (_ & _ & _ & H).
    destruct (H (<["ulimits" := "core=0"]> ∅)) as [Hin _].
    exact (proj2 (Hin "core=0" eq_refl)).
  - destruct (annotations_get_add sample_exception "envvars") as (_ & _ & _ & H).
    destruct (H (<["ulimits" := "core=0"]> ∅)) as [_ Hout].
    exact (eq_trans (proj2 (Hout eq_refl)) eq_refl).
  - destruct (annotations_get_add sample_exception "missing") as (_ & Hnone & _).
    exact (Hnone eq_refl).
Defined.

(** * Further properties *)

Example system_exception_what :
  SystemException.what (SystemException.ctor sample_strerror "Something happened" 9)
  = "Something happened: Bad file descriptor (errno=9)".
Proof. reflexivity. Qed.

Example system_exception_negative :
  SystemException.sys (SystemException.ctor sample_strerror "x" (-1))
  = "Unknown error (errno=-1)".
Proof. reflexivity. Qed.

(** ** [AppResponse]: the queries together *)

Lemma is_BodyType_dec (v : Z) : {is_BodyType v} + {~ is_BodyType v}.
Proof. apply (In_dec Z.eq_dec). Qed.

Lemma is_HttpState_dec (v : Z) : {is_HttpState v} + {~ is_HttpState v}.
Proof. apply (In_dec Z.eq_dec). Qed.

(** X1: over the whole range of the [bodyType] field, enumerator or not,
    [hasBody()] is false for the values 0 and 1 and true from 2 on; so it is
    false exactly for [RBT_NO_BODY] and [RBT_UPGRADE]. *)
Theorem hasBody_range (r : AppResponse) :
  0 <= bodyType r < 2^4 ->
  eval hasBody r = Some (bodyType r >=? 2) /\
  (eval hasBody r = Some false <->
     bodyType r = RBT_NO_BODY \/ bodyType r = RBT_UPGRADE).
Proof.
  intros Hr. unfold hasBody. rewrite eval_bind_gets.
  assert (H : bodyType r = 0 \/ bodyType r = 1 \/ bodyType r = 2 \/
              bodyType r = 3 \/ bodyType r = 4 \/ bodyType r = 5 \/
              bodyType r = 6 \/ bodyType r = 7 \/ bodyType r = 8 \/
              bodyType r = 9 \/ bodyType r = 10 \/ bodyType r = 11 \/
              bodyType r = 12 \/ bodyType r = 13 \/ bodyType r = 14 \/
              bodyType r = 15) by lia.
  unfold RBT_NO_BODY, RBT_UPGRADE.
  repeat (destruct H as [-> | H]); try rewrite H; cbn;
    (split; [reflexivity | split; [try discriminate; auto | intros [? | ?]; try discriminate; reflexivity]]).
Qed.

Lemma hasBody_range_witness :
  eval hasBody (sample 0) = Some (bodyType (sample 0) >=? 2).
Proof.
  assert (Hr : 0 <= bodyType (sample 0) < 2^4)
    by (change (bodyType (sample 0)) with 2; lia).
  exact (proj1 (hasBody_range (sample 0) Hr)).
Defined.



Lemma read_bool_none (byte : Z) : read_bool byte = None <-> byte <> 0 /\ byte <> 1.
Proof.
  unfold read_bool.
  destruct (Z.eqb_spec byte 0), (Z.eqb_spec byte 1); split;
    try discriminate; try tauto; intros [? ?]; congruence.
Qed.

(** X3: [bodyFullyRead()] is undefined in exactly two situations: [bodyType]
    is no enumerator (control leaves the [switch]), or it is [RBT_CHUNKED] or
    [RBT_UNTIL_EOF] while the first byte of the union is neither 0 nor 1 (no
    [bool]). *)
Theorem bodyFullyRead_undefined_iff (bo : ByteOrder) (r : AppResponse) :
  eval (bodyFullyRead bo) r = None <->
  ~ is_BodyType (bodyType r) \/
  ((bodyType r = RBT_CHUNKED \/ bodyType r = RBT_UNTIL_EOF) /\
   bytes_at_0 bo 1 (aux r) <> 0 /\ bytes_at_0 bo 1 (aux r) <> 1).
Proof.
  destruct (is_BodyType_dec (bodyType r)) as [Hv | Hout].
  - pose proof Hv as Hcase%is_BodyType_inv.
    unfold bodyFullyRead. rewrite eval_bind_gets.
    destruct Hcase as [E | [E | [E | [E | E]]]]; rewrite E in Hv |- *;
      cbn [switch]; cbn - [eval load is_BodyType].
    + split; [discriminate | intros [? | [[? | ?] _]]; [tauto | discriminate..]].
    + split; [discriminate | intros [? | [[? | ?] _]]; [tauto | discriminate..]].
    + split; [discriminate | intros [? | [[? | ?] _]]; [tauto | discriminate..]].
    + rewrite eval_load. unfold endChunkReached. rewrite read_bool_none.
      split; [intros H; right; split; [now left | exact H] | intros [? | [_ H]]; [tauto | exact H]].
    + rewrite eval_load. unfold endReached. rewrite read_bool_none.
      split; [intros H; right; split; [now right | exact H] | intros [? | [_ H]]; [tauto | exact H]].
  - split; [intros _; now left | intros _].
    unfold bodyFullyRead. rewrite eval_bind_gets.
    rewrite switch_miss; [reflexivity|].
    intros Hin. apply Hout. unfold is_BodyType. simpl in *. intuition auto.
Qed.

(** X4: [canKeepAlive()] is undefined exactly when [wantKeepAlive] is true
    and [bodyFullyRead()] is undefined; with [wantKeepAlive] false it returns
    false without looking at the body state at all. *)
Theorem canKeepAlive_undefined_iff (bo : ByteOrder) (r : AppResponse) :
  (eval (canKeepAlive bo) r = None <->
     wantKeepAlive r = true /\ eval (bodyFullyRead bo) r = None) /\
  (wantKeepAlive r = false -> canKeepAlive bo r = Some (false, r)).
Proof.
  unfold canKeepAlive, eval, bind, gets.
  destruct (wantKeepAlive r); split.
  - split; [now intros H | now intros [_ H]].
  - discriminate.
  - split; [discriminate | now intros [H _]].
  - reflexivity.
Qed.

Lemma canKeepAlive_undefined_iff_witness :
  eval (bodyFullyRead LittleEndian) stale = None /\
  canKeepAlive LittleEndian stale = Some (false, stale).
Proof.
  split; [reflexivity|].
  exact (proj2 (canKeepAlive_undefined_iff LittleEndian stale) eq_refl).
Defined.

(** X5: the keep-alive decision by body type: an upgraded connection is
    never kept alive, whatever [wantKeepAlive] says; a response without body
    is kept alive exactly when [wantKeepAlive] is set; with a content length,
    exactly when [wantKeepAlive] is set and the counter has reached the
    length. *)
Theorem canKeepAlive_by_type (bo : ByteOrder) (r : AppResponse) :
  (bodyType r = RBT_UPGRADE -> eval (canKeepAlive bo) r = Some false) /\
  (bodyType r = RBT_NO_BODY -> eval (canKeepAlive bo) r = Some (wantKeepAlive r)) /\
  (bodyType r = RBT_CONTENT_LENGTH ->
     eval (canKeepAlive bo) r =
       Some (wantKeepAlive r && (bodyAlreadyRead r >=? contentLength r))).
Proof.
  unfold canKeepAlive. rewrite eval_bind_gets.
  repeat split; intros Ht; destruct (wantKeepAlive r); try reflexivity.
  - unfold bodyFullyRead. now rewrite eval_bind_gets, Ht.
  - unfold bodyFullyRead. now rewrite eval_bind_gets, Ht.
  - now rewrite eval_bodyFullyRead_length.
Qed.

Lemma canKeepAlive_by_type_witness :
  eval (canKeepAlive LittleEndian) (sample 4) = Some (true && (4 >=? 10)).
Proof.
  destruct (canKeepAlive_by_type LittleEndian (sample 4)) as (_ & _ & H).
  exact (H eq_refl).
Defined.

(** ** [AppResponse]: the renderers identify the value *)

Lemma getHttpStateString_inv (r : AppResponse) (s : string) :
  eval getHttpStateString r = Some s -> In (s, httpState r) HttpState_enum.
Proof.
  intros Hs. destruct (is_HttpState_dec (httpState r)) as [Hv | Hout].
  - unfold is_HttpState in Hv. apply in_map_iff in Hv.
    destruct Hv as [[name v] [Hv Hin]]. simpl in Hv. subst v.
    rewrite (getHttpStateString_name r name (httpState r) Hin eq_refl) in Hs.
    now injection Hs as <-.
  - rewrite (getHttpStateString_none r Hout) in Hs. discriminate.
Qed.

Lemma getBodyTypeString_inv (r : AppResponse) (s : string) :
  eval getBodyTypeString r = Some s ->
  In (s, bodyType r)
     [ ("NO_BODY", RBT_NO_BODY); ("UPGRADE", RBT_UPGRADE);
       ("CONTENT_LENGTH", RBT_CONTENT_LENGTH); ("CHUNKED", RBT_CHUNKED);
       ("RBT_UNTIL_EOF", RBT_UNTIL_EOF) ].
Proof.
  intros Hs. destruct (is_BodyType_dec (bodyType r)) as [Hv | Hout].
  - apply is_BodyType_inv in Hv. unfold getBodyTypeString in Hs.
    rewrite eval_bind_gets in Hs.
    destruct Hv as [E | [E | [E | [E | E]]]]; rewrite E in Hs |- *;
      injection Hs as <-; simpl; auto 6.
  - rewrite (getBodyTypeString_none r Hout) in Hs. discriminate.
Qed.

(** In a table whose first components are all different, a first component
    determines the second. *)
Lemma table_functional {B} (table : list (string * B)) (s : string) (v1 v2 : B) :
  NoDup table.*1 -> In (s, v1) table -> In (s, v2) table -> v1 = v2.
Proof.
  induction table as [|[s0 v0] table IH]; intros Hnd H1 H2; [destruct H1|].
  cbn [fmap list_fmap fst] in Hnd. apply NoDup_cons in Hnd as [Hfresh Hnd].
  assert (Hnot : forall v, In (s0, v) table -> False).
  { intros v Hin. apply Hfresh. apply list_elem_of_In.
    exact (in_map fst table (s0, v) Hin). }
  destruct H1 as [E1 | H1], H2 as [E2 | H2].
  - congruence.
  - injection E1 as -> _. exfalso. eauto.
  - injection E2 as -> _. exfalso. eauto.
  - now apply IH.
Qed.

(** X6: the string [getHttpStateString()] returns is the identifier of the
    enumerator held in [httpState] and of no other: two objects rendered to
    the same string are in the same state. *)
Theorem getHttpStateString_injective (r1 r2 : AppResponse) (s : string) :
  eval getHttpStateString r1 = Some s ->
  eval getHttpStateString r2 = Some s ->
  In (s, httpState r1) HttpState_enum /\ httpState r1 = httpState r2.
Proof.
  intros H1%getHttpStateString_inv H2%getHttpStateString_inv.
  split; [exact H1|].
  apply (table_functional HttpState_enum s); [|exact H1|exact H2].
  apply NoDup_ListNoDup. repeat constructor; simpl; intuition discriminate.
Qed.

Lemma getHttpStateString_injective_witness :
  httpState (sample 1) = httpState (sample 2).
Proof.
  assert (H1 : eval getHttpStateString (sample 1) = Some "PARSING_BODY_WITH_LENGTH")
    by reflexivity.
  assert (H2 : eval getHttpStateString (sample 2) = Some "PARSING_BODY_WITH_LENGTH")
    by reflexivity.
  exact (proj2 (getHttpStateString_injective (sample 1) (sample 2) _ H1 H2)).
Defined.

(** X7: [getBodyTypeString()], its uneven naming notwithstanding, gives the
    five body types five different strings: two objects rendered to the
    same string have the same [bodyType]. *)
Theorem getBodyTypeString_injective (r1 r2 : AppResponse) (s : string) :
  eval getBodyTypeString r1 = Some s ->
  eval getBodyTypeString r2 = Some s ->
  is_BodyType (bodyType r1) /\ bodyType r1 = bodyType r2.
Proof.
  intros H1 H2. split.
  - destruct (is_BodyType_dec (bodyType r1)) as [Hv | Hout]; [exact Hv|].
    rewrite (getBodyTypeString_none r1 Hout) in H1. discriminate.
  - apply getBodyTypeString_inv in H1, H2.
    eapply table_functional; [|exact H1|exact H2].
    apply NoDup_ListNoDup. repeat constructor; simpl; intuition discriminate.
Qed.

Lemma getBodyTypeString_injective_witness :
  bodyType (sample 1) = bodyType (sample 2).
Proof.
  assert (H1 : eval getBodyTypeString (sample 1) = Some "CONTENT_LENGTH")
    by reflexivity.
  assert (H2 : eval getBodyTypeString (sample 2) = Some "CONTENT_LENGTH")
    by reflexivity.
  exact (proj2 (getBodyTypeString_injective (sample 1) (sample 2) _ H1 H2)).
Defined.

(** ** [SpawnException]: annotations as a whole map *)

Lemma addAnnotations_annotations (m : gmap string string) (e : SpawnException) :
  annotations (addAnnotations m e) = m ∪ annotations e.
Proof.
  unfold addAnnotations. cbn [annotations set_annotations].
  apply assign_all_union; [apply NoDup_fst_map_to_list | apply list_to_map_to_list].
Qed.

Lemma set_annotations_same (e : SpawnException) : set_annotations (annotations e) e = e.
Proof. now destruct e. Qed.

Lemma addAnnotations_eq (m : gmap string string) (e : SpawnException) :
  addAnnotations m e = set_annotations (m ∪ annotations e) e.
Proof.
  pose proof (addAnnotations_annotations m e) as H.
  unfold addAnnotations in *. cbn [annotations set_annotations] in H. now rewrite H.
Qed.

(** X8: [addAnnotations(m)] leaves the exception with the union of [m] and
    its former annotations, [m] winning on common keys; two calls in a row do
    what one call with the merged argument does, the later argument winning. *)
Theorem addAnnotations_compose (e : SpawnException) (m1 m2 : gmap string string) :
  getAnnotations (addAnnotations m1 e) = m1 ∪ getAnnotations e /\
  addAnnotations m2 (addAnnotations m1 e) = addAnnotations (m2 ∪ m1) e.
Proof.
  split; [apply addAnnotations_annotations|].
  rewrite !addAnnotations_eq. unfold set_annotations.
  cbn [annotations errorKind msg m_hasErrorPage m_isHTML m_errorPage preloaderCommand].
  now rewrite (assoc_L (∪)).
Qed.

(** X9: the calls of [addAnnotations] that change nothing: with an empty
    map, with the exception's own annotations, and a repeated call with the
    same map. *)
Theorem addAnnotations_noop (e : SpawnException) (m : gmap string string) :
  addAnnotations ∅ e = e /\
  addAnnotations (getAnnotations e) e = e /\
  addAnnotations m (addAnnotations m e) = addAnnotations m e.
Proof.
  split; [|split].
  - rewrite addAnnotations_eq, (left_id_L ∅ (∪)). apply set_annotations_same.
  - unfold getAnnotations. rewrite addAnnotations_eq, (idemp_L (∪)).
    apply set_annotations_same.
  - rewrite !addAnnotations_eq. unfold set_annotations.
    cbn [annotations errorKind msg m_hasErrorPage m_isHTML m_errorPage preloaderCommand].
    now rewrite (assoc_L (∪)), (idemp_L (∪)).
Qed.

(** X10: [addAnnotations] never removes an annotation: the keys afterwards
    are the former keys together with the argument's, a key that was present
    stays present, and the number of annotations does not drop. *)
Theorem addAnnotations_never_removes (e : SpawnException) (m : gmap string string) :
  dom (getAnnotations (addAnnotations m e)) = dom m ∪ dom (getAnnotations e) /\
  (forall k, is_Some (getAnnotations e !! k) ->
             is_Some (getAnnotations (addAnnotations m e) !! k)) /\
  (size (getAnnotations e) <= size (getAnnotations (addAnnotations m e)))%nat.
Proof.
  unfold getAnnotations. rewrite addAnnotations_annotations.
  split; [|split].
  - apply dom_union_L.
  - intros k Hk. rewrite <- !elem_of_dom in *. rewrite dom_union_L.
    apply elem_of_union. now right.
  - rewrite <- !size_dom. apply subseteq_size. rewrite dom_union_L.
    apply union_subseteq_r.
Qed.

Lemma addAnnotations_never_removes_witness :
  is_Some (getAnnotations
             (addAnnotations (<["ulimits" := "core=0"]> ∅) sample_exception)
           !! "envvars").
Proof.
  apply (proj1 (proj2 (addAnnotations_never_removes sample_exception
                         (<["ulimits" := "core=0"]> ∅)))).
  exists "PATH=/bin". reflexivity.
Defined.

(** X11: [get] cannot tell an absent annotation from one stored with an
    empty value: it returns the empty string in exactly these two cases. *)
Theorem get_empty_iff (e : SpawnException) (name : string) :
  get name e = "" <->
  getAnnotations e !! name = None \/ getAnnotations e !! name = Some "".
Proof.
  unfold get, getAnnotations. destruct (annotations e !! name) as [v|].
  - split; [intros ->; now right | intros [H | H]; [discriminate | now injection H]].
  - split; [now left | reflexivity].
Qed.

(** X12: an exception from the message-only constructor has no error page
    and no annotation ([get] gives the empty string for every name), and
    what [addAnnotations(m)] then stores is [m] itself. *)
Theorem fresh_exception (message : string) (kind : ErrorKind)
    (m : gmap string string) (name : string) :
  let e := SpawnException_ctor message kind in
  hasErrorPage e = false /\ isHTML e = false /\ getErrorPage e = "" /\
  getErrorKind e = kind /\ getPreloaderCommand e = "" /\
  get name e = "" /\ operator_subscript name e = "" /\
  getAnnotations (addAnnotations m e) = m /\
  get name (addAnnotations m e) = default "" (m !! name).
Proof.
  cbv zeta. repeat split.
  - unfold getAnnotations. rewrite addAnnotations_annotations.
    cbn [annotations SpawnException_ctor]. apply (right_id_L ∅ (∪)).
  - rewrite get_lookup, addAnnotations_annotations.
    cbn [annotations SpawnException_ctor]. now rewrite (right_id_L ∅ (∪)).
Qed.

(** ** [SpawnException]: the error page and the mutators *)

Lemma ctor_page_some (message errorPage : string) (html : bool)
    (kind : ErrorKind) (e : SpawnException) :
  SpawnException_ctor_page message errorPage html kind = Some e ->
  e = mkSpawnException kind message true html errorPage "" ∅ /\
  (html = true -> html_kind kind).
Proof.
  unfold SpawnException_ctor_page, html_kind.
  destruct html, kind; cbn; intros [= <-]; split; auto; discriminate.
Qed.

(** X13: the constructor with an error page fails its assertion exactly for
    an HTML page with an error kind other than [UNDEFINED_ERROR] and the two
    [..._EXPLAINABLE_ERROR] kinds; a plain-text page goes with every kind.
    When it succeeds the object reports the page, the flag and the kind it
    was given and has no annotations. *)
Theorem ctor_page_assert (message errorPage : string) (html : bool) (kind : ErrorKind) :
  (SpawnException_ctor_page message errorPage html kind = None <->
     html = true /\ ~ html_kind kind) /\
  (forall e, SpawnException_ctor_page message errorPage html kind = Some e ->
     hasErrorPage e = true /\ getErrorPage e = errorPage /\ isHTML e = html /\
     getErrorKind e = kind /\ what e = c_str message /\
     getPreloaderCommand e = "" /\ getAnnotations e = ∅).
Proof.
  unfold SpawnException_ctor_page, html_kind. split.
  - destruct html, kind; cbn;
      (split;
       [ intros H;
         first [ discriminate H
               | split; [reflexivity | intros [K | [K | K]]; discriminate K] ]
       | intros [H1 H2];
         first [ reflexivity | discriminate H1 | exfalso; apply H2; auto ] ]).
  - intros e [-> _]%ctor_page_some. repeat split.
Qed.

Lemma ctor_page_assert_witness :
  exists e, SpawnException_ctor_page "boom" "<h1>boom</h1>" true
              APP_STARTUP_EXPLAINABLE_ERROR = Some e /\
            getErrorPage e = "<h1>boom</h1>".
Proof.
  eexists. split; [reflexivity|].
  apply (proj2 (ctor_page_assert "boom" "<h1>boom</h1>" true
                  APP_STARTUP_EXPLAINABLE_ERROR) _ eq_refl).
Defined.

Lemma run_op_frame (e : SpawnException) (op : SpawnOp) :
  what (run_op e op) = what e /\ getErrorKind (run_op e op) = getErrorKind e /\
  hasErrorPage (run_op e op) = hasErrorPage e /\
  getErrorPage (run_op e op) = getErrorPage e /\ isHTML (run_op e op) = isHTML e.
Proof. destruct op; repeat split. Qed.

Lemma run_ops_frame (ops : list SpawnOp) :
  forall e,
  what (run_ops ops e) = what e /\ getErrorKind (run_ops ops e) = getErrorKind e /\
  hasErrorPage (run_ops ops e) = hasErrorPage e /\
  getErrorPage (run_ops ops e) = getErrorPage e /\ isHTML (run_ops ops e) = isHTML e.
Proof.
  induction ops as [|op ops IH]; intros e; [repeat split|].
  change (run_ops (op :: ops) e) with (run_ops ops (run_op e op)).
  destruct (IH (run_op e op)) as (-> & -> & -> & -> & ->). apply run_op_frame.
Qed.

(** X14: whatever calls of [setPreloaderCommand] and [addAnnotations]
    follow a constructor, the message, error kind and error page stay as
    constructed, and the object keeps the constructors' discipline: an HTML
    page implies that there is a page and that the kind is [UNDEFINED_ERROR]
    or one of the two [..._EXPLAINABLE_ERROR] kinds; no page implies an empty
    page text that is not HTML. *)
Theorem error_page_invariant (e0 : SpawnException) (ops : list SpawnOp) :
  constructed e0 ->
  let e := run_ops ops e0 in
  (what e = what e0 /\ getErrorKind e = getErrorKind e0 /\
   hasErrorPage e = hasErrorPage e0 /\ getErrorPage e = getErrorPage e0 /\
   isHTML e = isHTML e0) /\
  (isHTML e = true -> hasErrorPage e = true /\ html_kind (getErrorKind e)) /\
  (hasErrorPage e = false -> getErrorPage e = "" /\ isHTML e = false).
Proof.
  intros Hc. cbv zeta. pose proof (run_ops_frame ops e0) as Hf.
  split; [exact Hf|]. destruct Hf as (_ & -> & -> & -> & ->).
  destruct Hc as [(message & kind & ->) | (message & page & html & kind & Hc)].
  - split; [discriminate | now split].
  - apply ctor_page_some in Hc as [-> Hk].
    split; [|discriminate]. cbn. intros ->. split; [reflexivity | now apply Hk].
Qed.

Lemma error_page_invariant_witness :
  what (run_ops [CallAddAnnotations (<["ulimits" := "core=0"]> ∅);
                 CallSetPreloaderCommand "/usr/bin/ruby"]
          (SpawnException_ctor "spawn failed" APP_STARTUP_TIMEOUT))
  = what (SpawnException_ctor "spawn failed" APP_STARTUP_TIMEOUT).
Proof.
  assert (Hc : constructed (SpawnException_ctor "spawn failed" APP_STARTUP_TIMEOUT)).
  { left. eexists. eexists. reflexivity. }
  exact (proj1 (proj1 (error_page_invariant _
    [CallAddAnnotations (<["ulimits" := "core=0"]> ∅);
     CallSetPreloaderCommand "/usr/bin/ruby"] Hc))).
Defined.

(** [setPreloaderCommand] stores what [getPreloaderCommand] then
    returns, the last call winning; it touches no annotation, and it commutes
    with [addAnnotations]. *)
Lemma setPreloaderCommand_compose (e : SpawnException) (f1 f2 : string)
    (m : gmap string string) (name : string) :
  getPreloaderCommand (setPreloaderCommand f1 e) = f1 /\
  setPreloaderCommand f2 (setPreloaderCommand f1 e) = setPreloaderCommand f2 e /\
  get name (setPreloaderCommand f1 e) = get name e /\
  setPreloaderCommand f1 (addAnnotations m e) = addAnnotations m (setPreloaderCommand f1 e) /\
  getPreloaderCommand (addAnnotations m (setPreloaderCommand f1 e)) = f1.
Proof. repeat split. Qed.

(** ** [what()] as a C string *)

Lemma c_str_nul_free (s : string) : nul_free (c_str s).
Proof.
  unfold nul_free. induction s as [|c s IH]; cbn; [tauto|].
  destruct (Ascii.eqb_spec c Ascii.zero) as [-> | Hc]; cbn; [tauto|].
  intros [H | H]; [congruence | tauto].
Qed.

Lemma c_str_prefix (s : string) : String.prefix (c_str s) s = true.
Proof.
  induction s as [|c s IH]; cbn; [reflexivity|].
  destruct (Ascii.eqb_spec c Ascii.zero) as [-> | Hc]; cbn; [reflexivity|].
  destruct (Ascii.ascii_dec c c); [exact IH | congruence].
Qed.

Lemma c_str_id_iff (s : string) : c_str s = s <-> nul_free s.
Proof.
  split.
  - intros <-. apply c_str_nul_free.
  - unfold nul_free. induction s as [|c s IH]; cbn; [reflexivity|].
    intros Hn. destruct (Ascii.eqb_spec c Ascii.zero) as [-> | Hc].
    + exfalso. apply Hn. now left.
    + f_equal. apply IH. intros Hin. apply Hn. now right.
Qed.

Lemma c_str_length (s : string) : (String.length (c_str s) <= String.length s)%nat.
Proof.
  induction s as [|c s IH]; cbn; [lia|].
  destruct (Ascii.eqb c Ascii.zero); cbn; lia.
Qed.

(** X15: read as a C string, [what()] of a [SpawnException] is the message
    up to its first NUL character: it contains no NUL, is a prefix of the
    message and no longer than it, and is the whole message exactly when the
    message contains no NUL. *)
Theorem what_c_string (message : string) (kind : ErrorKind) :
  let e := SpawnException_ctor message kind in
  nul_free (what e) /\
  String.prefix (what e) message = true /\
  (String.length (what e) <= String.length message)%nat /\
  (what e = message <-> nul_free message).
Proof.
  cbv zeta. unfold what. cbn [msg SpawnException_ctor].
  split; [apply c_str_nul_free|]. split; [apply c_str_prefix|].
  split; [apply c_str_length | apply c_str_id_iff].
Qed.

(** ** [SystemException] *)

Lemma SystemException_set_frame (message : string) (e : SystemException.t) :
  SystemException.brief (SystemException.setBriefMessage message e) = message /\
  SystemException.sys (SystemException.setBriefMessage message e) = SystemException.sys e /\
  SystemException.code (SystemException.setBriefMessage message e) = SystemException.code e.
Proof. repeat split. Qed.

(** X16: every [SystemException] a program can hold (constructed, then
    renamed with [setBriefMessage] any number of times) has
    [sys()] equal to the C library's text for [code()] followed by
    [" (errno=<code>)"] with the code in decimal, and [what()] equal to
    [brief()], [": "] and [sys()] joined (as a C string). *)
Theorem SystemException_invariant (strerror : Z -> string) (e : SystemException.t) :
  SystemException.reachable strerror e ->
  SystemException.sys e =
    ((strerror (SystemException.code e) +:+ " (errno=")
       +:+ pretty (SystemException.code e)) +:+ ")" /\
  SystemException.what e =
    c_str ((SystemException.brief e +:+ ": ") +:+ SystemException.sys e).
Proof.
  induction 1 as [brief code | message e _ [IHsys _]].
  - split; reflexivity.
  - destruct (SystemException_set_frame message e) as (_ & -> & ->).
    split; [exact IHsys | reflexivity].
Qed.

Lemma SystemException_invariant_witness :
  SystemException.what
    (SystemException.setBriefMessage "Cannot open file"
       (SystemException.ctor sample_strerror "Something happened" 9))
  = c_str (("Cannot open file" +:+ ": ") +:+ "Bad file descriptor (errno=9)").
Proof.
  apply (SystemException_invariant sample_strerror).
  apply SystemException.reachable_set, SystemException.reachable_ctor.
Defined.

(** X17: after the constructor and any run of [setBriefMessage] calls,
    [brief()] is the last message given (the constructor's when there was no
    call), while [code()] and [sys()] are still those of the constructor: its
    documented postconditions [code() == errorCode] and
    [brief() == briefMessage] are the case of no call. *)
Theorem SystemException_renames (strerror : Z -> string) (briefMessage : string)
    (errorCode : Z) (messages : list string) :
  let e := foldl (fun e message => SystemException.setBriefMessage message e)
                 (SystemException.ctor strerror briefMessage errorCode) messages in
  SystemException.brief e = default briefMessage (last messages) /\
  SystemException.code e = errorCode /\
  SystemException.sys e =
    ((strerror errorCode +:+ " (errno=") +:+ pretty errorCode) +:+ ")".
Proof.
  cbv zeta. induction messages as [|message messages IH] using rev_ind.
  - repeat split.
  - rewrite foldl_snoc, last_snoc. cbn [default].
    destruct IH as (_ & IHcode & IHsys).
    set (e := foldl _ _ messages) in *.
    destruct (SystemException_set_frame message e) as (-> & -> & ->).
    repeat split; assumption.
Qed.

Lemma string_app_cons (c : Ascii.ascii) (p q : string) :
  String c p +:+ q = String c (p +:+ q).
Proof. reflexivity. Qed.

Lemma string_app_assoc (p q r : string) : (p +:+ q) +:+ r = p +:+ (q +:+ r).
Proof.
  induction p as [|c p IH]; [reflexivity|].
  now rewrite !string_app_cons, IH.
Qed.

Lemma string_app_cancel_last (a : Ascii.ascii) (s t : string) :
  s +:+ String a "" = t +:+ String a "" -> s = t.
Proof.
  revert t. induction s as [|c s IH]; intros [|d t] H.
  - reflexivity.
  - rewrite string_app_cons in H. injection H as _ H. destruct t; discriminate H.
  - rewrite string_app_cons in H. injection H as _ H. destruct s; discriminate H.
  - rewrite !string_app_cons in H. injection H as -> H. f_equal. now apply IH.
Qed.

(** X18: the decimal code at the end of [sys()] tells error codes apart even
    when the C library gives them the same text. *)
Theorem SystemException_sys_code (strerror : Z -> string) (b1 b2 : string) (c1 c2 : Z) :
  strerror c1 = strerror c2 ->
  SystemException.sys (SystemException.ctor strerror b1 c1) =
  SystemException.sys (SystemException.ctor strerror b2 c2) ->
  c1 = c2.
Proof.
  intros Htext Hsys.
  change (((strerror c1 +:+ " (errno=") +:+ pretty c1) +:+ ")" =
          ((strerror c2 +:+ " (errno=") +:+ pretty c2) +:+ ")") in Hsys.
  rewrite Htext in Hsys. apply string_app_cancel_last in Hsys.
  rewrite !string_app_assoc in Hsys.
  do 2 apply (inj (String.app _)) in Hsys.
  now apply (inj pretty) in Hsys.
Qed.

Lemma SystemException_sys_code_witness : 5 = 5.
Proof.
  apply (SystemException_sys_code sample_strerror "a" "b" 5 5); reflexivity.
Defined.
